(** * Translation request lifecycle of the multilingual translator front end

    Shallow embedding of [App] and its [handleTranslationSubmit] handler
    (src/frontend/src/App.jsx).  The component state is the six [useState]
    slots; the outside world is the log of POST requests sent to the
    translation endpoint and the set of requests whose promise has not
    settled yet.  A settlement runs the continuation of the [await]: the
    [try] / [catch] / [finally] of the handler. *)

From Stdlib Require Import String Ascii List Bool Arith Lia.
Import ListNotations.
Open Scope string_scope.

(** ** JavaScript helpers *)

(** Characters removed by [String.prototype.trim], restricted to the
    8-bit range: TAB, LF, VT, FF, CR, SPACE and NO-BREAK SPACE. *)
Definition is_ws (c : ascii) : bool :=
  match nat_of_ascii c with
  | 9 | 10 | 11 | 12 | 13 | 32 | 160 => true
  | _ => false
  end.

Fixpoint trim_start (s : string) : string :=
  match s with
  | EmptyString => EmptyString
  | String c r => if is_ws c then trim_start r else s
  end.

Fixpoint trim_end (s : string) : string :=
  match s with
  | EmptyString => EmptyString
  | String c r =>
      let r' := trim_end r in
      if is_ws c && String.eqb r' "" then "" else String c r'
  end.

(** [s.trim()] *)
Definition trim (s : string) : string := trim_end (trim_start s).

(** [!s] on a string: only the empty string is falsy. *)
Definition str_falsy (s : string) : bool := String.eqb s "".

(** [v || d] where [v] is an optional string field ([undefined] is [None]). *)
Definition or_default (v : option string) (d : string) : string :=
  match v with
  | Some s => if str_falsy s then d else s
  | None => d
  end.

(** ** Data model *)

(** The six [useState] slots of [App]. *)
Record AppState := mkApp {
  inputText : string;
  originalLanguage : string;
  destinationLanguage : string;
  translationResult : string;
  errorMessage : string;
  isTranslating : bool
}.

(** Body of [axios.post("http://127.0.0.1:5000/translate", ...)]. *)
Record TranslateRequest := mkReq {
  text : string;
  source_language : string;
  target_language : string
}.

(** [err.response.data] of a rejected call. *)
Record ErrorData := mkErrData { message : option string }.

(** [err.response] of a rejected call: [data] is absent when the body
    was not parsable. *)
Record ErrorResponse := mkErrResp { data : option ErrorData }.

(** How the promise returned by [axios.post] settles. *)
Inductive Reply :=
  (** fulfilled (HTTP 2xx); [response.data.translated_text] *)
  | Fulfilled (translated_text : option string)
  (** rejected; [err.response] is absent for timeouts and connection
      errors *)
  | Rejected (response : option ErrorResponse).

(** Component state plus the network: [outbox] lists every request sent,
    in order (a request's id is its index), [pending] the ids of requests
    whose promise has not settled. *)
Record World := mkWorld {
  app : AppState;
  outbox : list TranslateRequest;
  pending : list nat
}.

Definition initialApp : AppState := mkApp "" "en" "es" "" "" false.
Definition initialWorld : World := mkWorld initialApp [] [].

(** ** Setters *)

Definition setInputText (v : string) (s : AppState) : AppState :=
  mkApp v (originalLanguage s) (destinationLanguage s) (translationResult s)
        (errorMessage s) (isTranslating s).
Definition setOriginalLanguage (v : string) (s : AppState) : AppState :=
  mkApp (inputText s) v (destinationLanguage s) (translationResult s)
        (errorMessage s) (isTranslating s).
Definition setDestinationLanguage (v : string) (s : AppState) : AppState :=
  mkApp (inputText s) (originalLanguage s) v (translationResult s)
        (errorMessage s) (isTranslating s).
Definition setTranslationResult (v : string) (s : AppState) : AppState :=
  mkApp (inputText s) (originalLanguage s) (destinationLanguage s) v
        (errorMessage s) (isTranslating s).
Definition setErrorMessage (v : string) (s : AppState) : AppState :=
  mkApp (inputText s) (originalLanguage s) (destinationLanguage s)
        (translationResult s) v (isTranslating s).
Definition setIsTranslating (v : bool) (s : AppState) : AppState :=
  mkApp (inputText s) (originalLanguage s) (destinationLanguage s)
        (translationResult s) (errorMessage s) v.

Definition mapApp (f : AppState -> AppState) (w : World) : World :=
  mkWorld (f (app w)) (outbox w) (pending w).

(** ** The handler *)

Definition emptyInputMessage : string := "Please enter some text.".
Definition noTranslationMessage : string := "No translation available.".
Definition genericFailureMessage : string :=
  "Failed to translate text. Please try again.".

(** Synchronous part of [handleTranslationSubmit], up to the [await]:
    validation, the resets, and the POST (recorded in [outbox] and marked
    pending). *)
Definition handleTranslationSubmit (w : World) : World :=
  let s := app w in
  if str_falsy (trim (inputText s)) then
    mapApp (setErrorMessage emptyInputMessage) w
  else
    let s1 := setIsTranslating true
                (setTranslationResult "" (setErrorMessage "" s)) in
    let req := mkReq (inputText s) (originalLanguage s)
                     (destinationLanguage s) in
    mkWorld s1 (outbox w ++ [req]) (length (outbox w) :: pending w).

(** [err.response?.data?.message] *)
Definition error_message (r : option ErrorResponse) : option string :=
  match r with
  | Some resp =>
      match data resp with
      | Some d => message d
      | None => None
      end
  | None => None
  end.

(** Continuation after the [await]: [try] / [catch], then [finally]. *)
Definition on_settled (r : Reply) (s : AppState) : AppState :=
  let s1 :=
    match r with
    | Fulfilled translated =>
        setTranslationResult (or_default translated noTranslationMessage) s
    | Rejected resp =>
        setErrorMessage (or_default (error_message resp) genericFailureMessage) s
    end in
  setIsTranslating false s1.

(** The promise of request [id] settles with [r].  A promise settles at
    most once; an id that is not pending is ignored.  No other check is
    made before the continuation runs. *)
Definition settle (id : nat) (r : Reply) (w : World) : World :=
  if existsb (Nat.eqb id) (pending w) then
    mkWorld (on_settled r (app w)) (outbox w)
            (filter (fun j => negb (Nat.eqb id j)) (pending w))
  else w.

(** ** The rendered interface *)

(** Events reaching the component: the three [onChange] handlers, a click
    on the button, and the settlement of an outstanding request. *)
Inductive Event :=
  | EditText (v : string)
  | EditSource (v : string)
  | EditTarget (v : string)
  | Click
  | Settle (id : nat) (r : Reply).

(** [<button onClick={handleTranslationSubmit} disabled={isTranslating}>]:
    a click on a disabled button does not reach the handler. *)
Definition ui_step (w : World) (e : Event) : World :=
  match e with
  | EditText v => mapApp (setInputText v) w
  | EditSource v => mapApp (setOriginalLanguage v) w
  | EditTarget v => mapApp (setDestinationLanguage v) w
  | Click => if isTranslating (app w) then w else handleTranslationSubmit w
  | Settle id r => settle id r w
  end.

Definition run (evs : list Event) (w : World) : World := fold_left ui_step evs w.

Definition reachable (w : World) : Prop :=
  exists evs, w = run evs initialWorld.

(** [{errorMessage && <ErrorMessage/>}], [{translationResult && <TranslatedOutput/>}] *)
Definition error_shown (s : AppState) : bool := negb (str_falsy (errorMessage s)).
Definition result_shown (s : AppState) : bool := negb (str_falsy (translationResult s)).

(** Id of the next request sent. *)
Definition next_id (w : World) : nat := length (outbox w).

(** ** The rendered page *)

(** Elements produced by the JSX of [App], with the props that depend on
    the state.  [TextArea rows value placeholder] is [TranslationInput],
    [LabeledInput label value placeholder] is [LanguageInput],
    [Button disabled opacity label] is the submit button with its opacity in
    tenths ([0.7] or [1]), [ErrorBox] is [ErrorMessage] and [OutputBox] is
    [TranslatedOutput]. *)
Inductive Node :=
  | Heading (s : string)
  | TextArea (rows value placeholder : string)
  | LabeledInput (label value placeholder : string)
  | Button (disabled : bool) (opacity_tenths : nat) (label : string)
  | ErrorBox (message : string)
  | OutputBox (text : string).

(** The element list returned by [App] for the state [s]; the two boxes
    are rendered by [{errorMessage && ...}] and
    [{translationResult && ...}]. *)
Definition render (s : AppState) : list Node :=
  [Heading "Multilingual Translator";
   TextArea "6" (inputText s) "Enter text to translate...";
   LabeledInput "Original Language:" (originalLanguage s) "e.g., en";
   LabeledInput "Destination Language:" (destinationLanguage s) "e.g., es";
   Button (isTranslating s) (if isTranslating s then 7 else 10)
          (if isTranslating s then "Translating..." else "Translate")]
  ++ (if str_falsy (errorMessage s) then [] else [ErrorBox (errorMessage s)])
  ++ (if str_falsy (translationResult s) then [] else [OutputBox (translationResult s)]).

(** Invariant of the rendered component: either a single request is
    outstanding, it is the last one sent, and the display was cleared for
    it; or nothing is outstanding and the button is enabled. *)
Definition ui_inv (w : World) : Prop :=
  (isTranslating (app w) = true /\ pending w = [pred (next_id w)] /\
   errorMessage (app w) = "" /\ translationResult (app w) = "")
  \/ (isTranslating (app w) = false /\ pending w = []).

(** ** Sanity checks on concrete inputs *)

Example trim_blank : trim "  " = "".
Proof. reflexivity. Qed.

Example trim_padded : trim (String (ascii_of_nat 9) " Hello  ") = "Hello".
Proof. reflexivity. Qed.

Example trim_inner : trim " a b " = "a b".
Proof. reflexivity. Qed.

Example or_default_empty : or_default (Some "") "d" = "d".
Proof. reflexivity. Qed.

(** ** Helper lemmas *)

Lemma str_falsy_false (s : string) : s <> "" -> str_falsy s = false.
Proof. intro H. unfold str_falsy. apply String.eqb_neq. exact H. Qed.

Lemma str_falsy_true (s : string) : s = "" -> str_falsy s = true.
Proof. intros ->. reflexivity. Qed.

Lemma or_default_nonempty (v : option string) (d : string) :
  d <> "" -> or_default v d <> "".
Proof.
  intro Hd. destruct v as [s|]; simpl; [|exact Hd].
  unfold str_falsy. destruct (String.eqb_spec s ""); [exact Hd | exact n].
Qed.

Lemma emptyInputMessage_nonempty : emptyInputMessage <> "".
Proof. discriminate. Qed.

Lemma noTranslationMessage_nonempty : noTranslationMessage <> "".
Proof. discriminate. Qed.

Lemma genericFailureMessage_nonempty : genericFailureMessage <> "".
Proof. discriminate. Qed.

(** The request sent by an accepted submission is pending right after. *)
Lemma settle_after_submit (w : World) (r : Reply) :
  trim (inputText (app w)) <> "" ->
  settle (next_id w) r (handleTranslationSubmit w) =
  mkWorld (on_settled r (setIsTranslating true
             (setTranslationResult "" (setErrorMessage "" (app w)))))
          (outbox w ++ [mkReq (inputText (app w)) (originalLanguage (app w))
                              (destinationLanguage (app w))])
          (filter (fun j => negb (Nat.eqb (next_id w) j)) (next_id w :: pending w)).
Proof.
  intro Hv. unfold handleTranslationSubmit. rewrite (str_falsy_false _ Hv).
  unfold settle, next_id. simpl. rewrite Nat.eqb_refl. reflexivity.
Qed.

Lemma ui_inv_initial : ui_inv initialWorld.
Proof. right. split; reflexivity. Qed.

Lemma ui_inv_step (w : World) (e : Event) : ui_inv w -> ui_inv (ui_step w e).
Proof.
  intros [(Ht & Hp & He & Hr) | (Ht & Hp)];
    destruct e as [v|v|v| |id r]; cbn [ui_step mapApp app pending outbox].
  - left. repeat split; assumption.
  - left. repeat split; assumption.
  - left. repeat split; assumption.
  - rewrite Ht. left. repeat split; assumption.
  - unfold settle. rewrite Hp. cbn [existsb filter].
    rewrite orb_false_r.
    destruct (Nat.eqb id (pred (next_id w))) eqn:E; cbn [negb].
    + right. split; reflexivity.
    + exact (or_introl (conj Ht (conj Hp (conj He Hr)))).
  - right. split; assumption.
  - right. split; assumption.
  - right. split; assumption.
  - rewrite Ht. unfold handleTranslationSubmit.
    destruct (str_falsy (trim (inputText (app w)))).
    + right. split; assumption.
    + left. unfold next_id. simpl. rewrite Hp, length_app. simpl.
      rewrite Nat.add_1_r. repeat split; reflexivity.
  - unfold settle. rewrite Hp. simpl. right. split; assumption.
Qed.

Lemma ui_inv_run (evs : list Event) (w : World) : ui_inv w -> ui_inv (run evs w).
Proof.
  revert w. induction evs as [|e evs IH]; intros w Hw; simpl.
  - exact Hw.
  - apply IH. apply ui_inv_step. exact Hw.
Qed.

Lemma ui_inv_reachable (w : World) : reachable w -> ui_inv w.
Proof. intros [evs ->]. apply ui_inv_run, ui_inv_initial. Qed.

(** ** Claims *)

(** Input used by the witnesses below. *)
Definition hello_world : World :=
  mkWorld (mkApp "Hello" "en" "es" "" "" false) [] [].

(** C1: a submission whose text is empty after trimming sets the
    empty-input error and sends no request, whatever the language codes. *)
Theorem submit_blank_no_request (w : World) :
  trim (inputText (app w)) = "" ->
  errorMessage (app (handleTranslationSubmit w)) = emptyInputMessage /\
  outbox (handleTranslationSubmit w) = outbox w /\
  pending (handleTranslationSubmit w) = pending w.
Proof.
  intro Hb. unfold handleTranslationSubmit. rewrite (str_falsy_true _ Hb).
  repeat split.
Qed.

Lemma submit_blank_no_request_witness :
  let w := mkWorld (mkApp "  " "fr" "de" "" "" false) [] [] in
  trim (inputText (app w)) = "" /\
  (errorMessage (app (handleTranslationSubmit w)) = emptyInputMessage /\
   outbox (handleTranslationSubmit w) = outbox w /\
   pending (handleTranslationSubmit w) = pending w).
Proof.
  split; [reflexivity | apply submit_blank_no_request; reflexivity].
Defined.

(** C2: an accepted submission whose request is fulfilled with a non-empty
    [translated_text] X settles with X displayed as the result and no
    error. *)
Theorem submit_success_payload (w : World) (X : string) :
  trim (inputText (app w)) <> "" -> X <> "" ->
  let w' := settle (next_id w) (Fulfilled (Some X)) (handleTranslationSubmit w) in
  translationResult (app w') = X /\ errorMessage (app w') = "" /\
  isTranslating (app w') = false.
Proof.
  intros Hv HX. cbv zeta. rewrite (settle_after_submit _ _ Hv). simpl.
  rewrite (str_falsy_false _ HX). repeat split.
Qed.

Lemma submit_success_payload_witness :
  trim (inputText (app hello_world)) <> "" /\ "Hola" <> "" /\
  (let w' := settle (next_id hello_world) (Fulfilled (Some "Hola"))
               (handleTranslationSubmit hello_world) in
   translationResult (app w') = "Hola" /\ errorMessage (app w') = "" /\
   isTranslating (app w') = false).
Proof.
  split; [discriminate | split; [discriminate |]].
  apply submit_success_payload; discriminate.
Defined.

Lemma existsb_eqb_in (a : nat) (l : list nat) :
  In a l -> existsb (Nat.eqb a) l = true.
Proof.
  intro H. apply existsb_exists. exists a. split; [exact H | apply Nat.eqb_refl].
Qed.

(** C3: through the rendered interface a second submission cannot be
    issued while one is outstanding (the click is ignored), the outstanding
    request is always the most recent submission, and the settlement of any
    other request never changes the state: only the latest submission's
    resolution can update the displayed outcome. *)
Theorem last_submission_wins (w : World) :
  reachable w ->
  (forall a, In a (pending w) -> a = pred (next_id w) /\ ui_step w Click = w) /\
  (forall id r, id <> pred (next_id w) -> settle id r w = w).
Proof.
  intro Hr. destruct (ui_inv_reachable w Hr) as [(Ht & Hp & _) | (_ & Hp)].
  - split.
    + intros a Ha. rewrite Hp in Ha. destruct Ha as [<- | []].
      split; [reflexivity |]. cbn [ui_step]. rewrite Ht. reflexivity.
    + intros id r Hid. unfold settle. rewrite Hp. cbn [existsb].
      apply Nat.eqb_neq in Hid. rewrite Hid. reflexivity.
  - split.
    + intros a Ha. rewrite Hp in Ha. destruct Ha.
    + intros id r _. unfold settle. rewrite Hp. reflexivity.
Qed.

Lemma last_submission_wins_witness :
  let w := run [EditText "Hi"; Click; Settle 0 (Rejected None);
                EditText "Bye"; Click] initialWorld in
  reachable w /\ In 1 (pending w) /\
  ui_step w Click = w /\ settle 0 (Fulfilled (Some "A")) w = w.
Proof.
  assert (Hr : reachable (run [EditText "Hi"; Click; Settle 0 (Rejected None);
                               EditText "Bye"; Click] initialWorld))
    by (eexists; reflexivity).
  split; [exact Hr | split; [left; reflexivity | split]].
  - exact (proj2 (proj1 (last_submission_wins _ Hr) 1 (or_introl eq_refl))).
  - apply (proj2 (last_submission_wins _ Hr)). discriminate.
Defined.

(** A padded input is sent as typed: the request text is not the trimmed
    input. *)
Lemma request_text_untrimmed :
  let w := mkWorld (mkApp " Hello " "en" "es" "" "" false) [] [] in
  outbox (handleTranslationSubmit w) = [mkReq " Hello " "en" "es"] /\
  trim (inputText (app w)) = "Hello" /\
  " Hello " <> trim (inputText (app w)).
Proof. repeat split. discriminate. Qed.

(** C4 (amended): an accepted submission sends exactly one request whose
    text is the raw input as typed (not trimmed) and whose language codes
    are the current source and target codes, unmodified. *)
Theorem submit_request_fields (w : World) :
  trim (inputText (app w)) <> "" ->
  outbox (handleTranslationSubmit w) =
    (outbox w ++ [mkReq (inputText (app w)) (originalLanguage (app w))
                        (destinationLanguage (app w))])%list.
Proof.
  intro Hv. unfold handleTranslationSubmit. rewrite (str_falsy_false _ Hv).
  reflexivity.
Qed.

Lemma submit_request_fields_witness :
  let w := mkWorld (mkApp " Hello " "en" "es" "" "" false) [] [] in
  trim (inputText (app w)) <> "" /\
  outbox (handleTranslationSubmit w) =
    (outbox w ++ [mkReq (inputText (app w)) (originalLanguage (app w))
                        (destinationLanguage (app w))])%list.
Proof.
  split; [discriminate | apply submit_request_fields; discriminate].
Defined.

(** A rejected call whose body carries an empty [message] shows the
    generic text, not the (empty) message. *)
Lemma empty_message_not_verbatim :
  let resp := Some (mkErrResp (Some (mkErrData (Some "")))) in
  let w' := settle 0 (Rejected resp) (handleTranslationSubmit hello_world) in
  error_message resp = Some "" /\
  errorMessage (app w') = genericFailureMessage /\
  errorMessage (app w') <> "".
Proof.
  split; [reflexivity | split; [reflexivity |]].
  vm_compute. discriminate.
Qed.

(** C5 (amended): a rejected request settles with no result and the
    provider's [message] verbatim when it is a non-empty string; with no
    response (timeout, connection error), no parsable body, no message or
    an empty one, the generic failure text is shown. *)
Theorem submit_failure_message (w : World) (resp : option ErrorResponse) :
  trim (inputText (app w)) <> "" ->
  let w' := settle (next_id w) (Rejected resp) (handleTranslationSubmit w) in
  translationResult (app w') = "" /\ isTranslating (app w') = false /\
  (forall m, error_message resp = Some m -> m <> "" -> errorMessage (app w') = m) /\
  ((forall m, error_message resp = Some m -> m = "") ->
   errorMessage (app w') = genericFailureMessage) /\
  (resp = None -> errorMessage (app w') = genericFailureMessage).
Proof.
  intro Hv. cbv zeta. rewrite (settle_after_submit _ _ Hv).
  cbn [app on_settled setIsTranslating setErrorMessage setTranslationResult
       translationResult isTranslating errorMessage].
  split; [reflexivity | split; [reflexivity |]].
  destruct (error_message resp) as [m0|] eqn:Em; cbn [or_default].
  - split; [|split].
    + intros m Hm Hne. injection Hm as <-. rewrite (str_falsy_false _ Hne).
      reflexivity.
    + intro Hall. rewrite (str_falsy_true _ (Hall m0 eq_refl)). reflexivity.
    + intros ->. discriminate Em.
  - split; [intros m Hm; discriminate Hm | split; reflexivity].
Qed.

Lemma submit_failure_message_witness :
  let resp := Some (mkErrResp (Some (mkErrData (Some "rate limited")))) in
  let w' := settle (next_id hello_world) (Rejected resp)
              (handleTranslationSubmit hello_world) in
  trim (inputText (app hello_world)) <> "" /\ errorMessage (app w') = "rate limited".
Proof.
  split; [discriminate |].
  apply (proj1 (proj2 (proj2 (submit_failure_message hello_world _
           ltac:(discriminate))))); [reflexivity | discriminate].
Defined.

(** C6: an accepted submission fulfilled with [translated_text] absent or
    empty settles as a success showing "No translation available.", with
    no error. *)
Theorem submit_empty_translation_sentinel (w : World) (t : option string) :
  trim (inputText (app w)) <> "" -> t = None \/ t = Some "" ->
  let w' := settle (next_id w) (Fulfilled t) (handleTranslationSubmit w) in
  translationResult (app w') = noTranslationMessage /\
  errorMessage (app w') = "" /\ isTranslating (app w') = false.
Proof.
  intros Hv Ht. cbv zeta. rewrite (settle_after_submit _ _ Hv).
  destruct Ht as [-> | ->]; repeat split.
Qed.

Lemma submit_empty_translation_sentinel_witness :
  trim (inputText (app hello_world)) <> "" /\
  ((None : option string) = None \/ (None : option string) = Some "") /\
  (let w' := settle (next_id hello_world) (Fulfilled None)
               (handleTranslationSubmit hello_world) in
   translationResult (app w') = noTranslationMessage /\
   errorMessage (app w') = "" /\ isTranslating (app w') = false).
Proof.
  split; [discriminate | split; [left; reflexivity |]].
  apply submit_empty_translation_sentinel; [discriminate | left; reflexivity].
Defined.

(** Settling the outstanding request of a reachable state displays
    exactly one of the error and the result. *)
Lemma settle_reachable_exclusive (w : World) (id : nat) (r : Reply) :
  reachable w -> In id (pending w) ->
  xorb (error_shown (app (settle id r w))) (result_shown (app (settle id r w))) = true.
Proof.
  intros Hr Hin. destruct (ui_inv_reachable w Hr) as [(_ & Hp & He & Hres) | (_ & Hp)].
  - unfold settle. rewrite (existsb_eqb_in _ _ Hin).
    unfold error_shown, result_shown.
    destruct r as [t | resp];
      cbn [app on_settled setIsTranslating setErrorMessage setTranslationResult
           translationResult errorMessage].
    + rewrite He, (str_falsy_false _ (or_default_nonempty t _ noTranslationMessage_nonempty)).
      reflexivity.
    + rewrite Hres,
        (str_falsy_false _ (or_default_nonempty _ _ genericFailureMessage_nonempty)).
      reflexivity.
  - rewrite Hp in Hin. destruct Hin.
Qed.

(** Typing "Hello", getting "Hola", then clearing the text and clicking
    again: the validation error is shown next to the earlier result. *)
Lemma validation_error_beside_result :
  let w := run [EditText "Hello"; Click; Settle 0 (Fulfilled (Some "Hola"));
                EditText "  "; Click] initialWorld in
  reachable w /\
  errorMessage (app w) = emptyInputMessage /\ translationResult (app w) = "Hola" /\
  error_shown (app w) = true /\ result_shown (app w) = true.
Proof.
  split; [eexists; reflexivity |]. repeat split.
Qed.

(** C7 (amended): a submission that passes validation clears the error
    and the result before sending its request; while it is outstanding
    neither is shown, and its settlement shows exactly one of them.  A
    submission rejected by validation sets the error and keeps any result
    already shown. *)
Theorem display_clear_then_exclusive :
  (forall w, trim (inputText (app w)) <> "" ->
     errorMessage (app (handleTranslationSubmit w)) = "" /\
     translationResult (app (handleTranslationSubmit w)) = "" /\
     length (outbox (handleTranslationSubmit w)) = S (length (outbox w))) /\
  (forall w, reachable w -> isTranslating (app w) = true ->
     error_shown (app w) = false /\ result_shown (app w) = false) /\
  (forall w id r, reachable w -> In id (pending w) ->
     xorb (error_shown (app (settle id r w)))
          (result_shown (app (settle id r w))) = true) /\
  (forall w, trim (inputText (app w)) = "" ->
     error_shown (app (handleTranslationSubmit w)) = true /\
     translationResult (app (handleTranslationSubmit w)) = translationResult (app w)).
Proof.
  split; [|split; [|split]].
  - intros w Hv. unfold handleTranslationSubmit. rewrite (str_falsy_false _ Hv).
    cbn [app outbox]. rewrite length_app, Nat.add_1_r. repeat split.
  - intros w Hr Ht. destruct (ui_inv_reachable w Hr) as [(_ & _ & He & Hres) | (Hf & _)].
    + unfold error_shown, result_shown. rewrite He, Hres. split; reflexivity.
    + rewrite Ht in Hf. discriminate Hf.
  - exact settle_reachable_exclusive.
  - intros w Hb. unfold handleTranslationSubmit. rewrite (str_falsy_true _ Hb).
    split; reflexivity.
Qed.

Lemma display_clear_then_exclusive_witness :
  let w := run [EditText "Hello"; Click] initialWorld in
  error_shown (app w) = false /\
  xorb (error_shown (app (settle 0 (Rejected None) w)))
       (result_shown (app (settle 0 (Rejected None) w))) = true.
Proof.
  split.
  - apply (proj1 (proj1 (proj2 display_clear_then_exclusive) _
                   (ex_intro _ [EditText "Hello"; Click] eq_refl) eq_refl)).
  - apply (proj1 (proj2 (proj2 display_clear_then_exclusive))).
    + exists [EditText "Hello"; Click]. reflexivity.
    + simpl. left. reflexivity.
Defined.

(** C8: in every reachable state the in-progress flag is set exactly when
    a request is outstanding; an enabled click on valid input sets it in
    the same step that sends the request, and every settlement clears it,
    on success and on failure alike. *)
Theorem in_progress_iff_outstanding (w : World) :
  reachable w ->
  (isTranslating (app w) = true <-> pending w <> []) /\
  (isTranslating (app w) = false -> trim (inputText (app w)) <> "" ->
     isTranslating (app (ui_step w Click)) = true /\
     pending (ui_step w Click) = [next_id w] /\
     length (outbox (ui_step w Click)) = S (next_id w)) /\
  (forall id r, In id (pending w) ->
     isTranslating (app (settle id r w)) = false /\ pending (settle id r w) = []).
Proof.
  intro Hr. destruct (ui_inv_reachable w Hr) as [(Ht & Hp & _) | (Ht & Hp)].
  - split; [|split].
    + rewrite Hp. split; [intros _; discriminate | intros _; exact Ht].
    + intro Hf. rewrite Ht in Hf. discriminate Hf.
    + intros id r Hin. rewrite Hp in Hin. destruct Hin as [<- | []].
      unfold settle. rewrite Hp. cbn [existsb filter].
      rewrite Nat.eqb_refl. split; reflexivity.
  - split; [|split].
    + rewrite Ht, Hp. split; [discriminate | intro H; exfalso; apply H; reflexivity].
    + intros _ Hv. cbn [ui_step]. rewrite Ht. unfold handleTranslationSubmit.
      rewrite (str_falsy_false _ Hv). cbn [app pending outbox].
      rewrite Hp, length_app, Nat.add_1_r. repeat split.
    + intros id r Hin. rewrite Hp in Hin. destruct Hin.
Qed.

Lemma in_progress_iff_outstanding_witness :
  let w := run [EditText "Hello"; Click] initialWorld in
  reachable w /\ isTranslating (app w) = true /\ pending w <> [] /\
  isTranslating (app (settle 0 (Fulfilled (Some "Hola")) w)) = false.
Proof.
  assert (Hr : reachable (run [EditText "Hello"; Click] initialWorld))
    by (exists [EditText "Hello"; Click]; reflexivity).
  destruct (in_progress_iff_outstanding _ Hr) as [[H1 _] [_ H3]].
  split; [exact Hr | split; [reflexivity | split]].
  - apply H1. reflexivity.
  - apply (proj1 (H3 0 (Fulfilled (Some "Hola")) (or_introl eq_refl))).
Defined.

(** C9: a click while a request is in flight does nothing (the button is
    disabled), so in every reachable state at most one request is
    outstanding. *)
Theorem click_disabled_while_translating :
  (forall w, isTranslating (app w) = true -> ui_step w Click = w) /\
  (forall w, reachable w -> length (pending w) <= 1).
Proof.
  split.
  - intros w Ht. cbn [ui_step]. rewrite Ht. reflexivity.
  - intros w Hr. destruct (ui_inv_reachable w Hr) as [(_ & Hp & _) | (_ & Hp)];
      rewrite Hp; simpl; lia.
Qed.

Lemma click_disabled_while_translating_witness :
  let w := run [EditText "Hello"; Click] initialWorld in
  ui_step w Click = w /\ length (pending w) <= 1.
Proof.
  split.
  - apply (proj1 click_disabled_while_translating). reflexivity.
  - apply (proj2 click_disabled_while_translating).
    exists [EditText "Hello"; Click]. reflexivity.
Defined.

(** C10: a submission rejected by validation changes only the error
    message: the result, the in-progress flag, the text and language inputs
    and the network are left as they were. *)
Theorem blank_submit_frame (w : World) :
  trim (inputText (app w)) = "" ->
  let w' := handleTranslationSubmit w in
  errorMessage (app w') = emptyInputMessage /\
  translationResult (app w') = translationResult (app w) /\
  isTranslating (app w') = isTranslating (app w) /\
  inputText (app w') = inputText (app w) /\
  originalLanguage (app w') = originalLanguage (app w) /\
  destinationLanguage (app w') = destinationLanguage (app w) /\
  outbox w' = outbox w /\ pending w' = pending w.
Proof.
  intro Hb. cbv zeta. unfold handleTranslationSubmit.
  rewrite (str_falsy_true _ Hb). repeat split.
Qed.

Lemma blank_submit_frame_witness :
  let w := mkWorld (mkApp (String (ascii_of_nat 10) " ") "en" "es" "Hola" "" false)
             [mkReq "Hello" "en" "es"] [] in
  trim (inputText (app w)) = "" /\
  translationResult (app (handleTranslationSubmit w)) = "Hola".
Proof.
  split; [reflexivity |].
  apply (proj1 (proj2 (blank_submit_frame
    (mkWorld (mkApp (String (ascii_of_nat 10) " ") "en" "es" "Hola" "" false)
             [mkReq "Hello" "en" "es"] []) eq_refl))).
Defined.

(** ** Further properties of the component *)

Lemma trim_end_empty_iff (t : string) :
  trim_end t = "" <-> forallb is_ws (list_ascii_of_string t) = true.
Proof.
  induction t as [|c r IH]; simpl; [split; reflexivity|].
  destruct (is_ws c); simpl.
  - destruct (String.eqb_spec (trim_end r) "") as [E|E].
    + split; [intros _; apply IH, E | reflexivity].
    + split; [discriminate | intro H; exfalso; apply E, IH, H].
  - split; discriminate.
Qed.

Lemma trim_start_empty_iff (s : string) :
  trim_start s = "" <-> forallb is_ws (list_ascii_of_string s) = true.
Proof.
  induction s as [|c r IH]; simpl; [split; reflexivity|].
  destruct (is_ws c); simpl; [exact IH | split; discriminate].
Qed.

(** What is left after [trim_start] is empty or starts with a
    non-whitespace character. *)
Lemma trim_start_head (s : string) :
  forallb is_ws (list_ascii_of_string (trim_start s)) = true -> trim_start s = "".
Proof.
  induction s as [|c r IH]; simpl; [reflexivity|].
  destruct (is_ws c) eqn:Hc; [exact IH|].
  simpl. rewrite Hc. discriminate.
Qed.

(** Validation ([!inputText.trim()]) rejects a text exactly when every
    character of it is whitespace; text with any other character passes,
    surrounding whitespace notwithstanding. *)
Theorem trim_blank_iff_all_whitespace (s : string) :
  str_falsy (trim s) = true <->
  (forall c, In c (list_ascii_of_string s) -> is_ws c = true).
Proof.
  unfold str_falsy, trim. rewrite String.eqb_eq, trim_end_empty_iff.
  rewrite <- forallb_forall, <- (trim_start_empty_iff s).
  split; [apply trim_start_head | intros ->; reflexivity].
Qed.

Lemma trim_valid_neq (s : string) : str_falsy (trim s) = false -> trim s <> "".
Proof. unfold str_falsy. intro H. apply String.eqb_neq, H. Qed.

(** Requests sent never carry blank text, and every outstanding id names
    a request that was sent; kept by any run of the handler and the
    events. *)
Definition sent_ok (w : World) : Prop :=
  (forall r, In r (outbox w) -> str_falsy (trim (text r)) = false) /\
  (forall i, In i (pending w) -> i < length (outbox w)).

Lemma sent_ok_submit (w : World) : sent_ok w -> sent_ok (handleTranslationSubmit w).
Proof.
  intros [Ho Hp]. unfold handleTranslationSubmit.
  destruct (str_falsy (trim (inputText (app w)))) eqn:Hb; [split; assumption|].
  split; cbn [outbox pending].
  - intros r Hr. apply in_app_or in Hr as [Hr | [<- | []]]; [exact (Ho r Hr) | exact Hb].
  - rewrite length_app. simpl. intros i [<- | Hi]; [lia|].
    specialize (Hp i Hi). lia.
Qed.

Lemma sent_ok_step (w : World) (e : Event) : sent_ok w -> sent_ok (ui_step w e).
Proof.
  intros Hw. destruct e as [v|v|v| |id r]; cbn [ui_step]; try exact Hw.
  - destruct (isTranslating (app w)); [exact Hw | apply sent_ok_submit, Hw].
  - destruct Hw as [Ho Hp]. unfold settle.
    destruct (existsb (Nat.eqb id) (pending w)); [|split; assumption].
    split; cbn [outbox pending]; [exact Ho|].
    intros i Hi. apply filter_In in Hi as [Hi _]. exact (Hp i Hi).
Qed.

(** Every request the component has sent carries text that is not blank
    after trimming, and every outstanding request is one that was sent. *)
Theorem sent_requests_nonblank (w : World) :
  reachable w ->
  (forall r, In r (outbox w) -> trim (text r) <> "") /\
  (forall i, In i (pending w) -> i < length (outbox w)).
Proof.
  intros [evs ->].
  assert (H : forall w0, sent_ok w0 -> sent_ok (run evs w0)).
  { induction evs as [|e evs IH]; intros w0 H0; simpl; [exact H0|].
    apply IH, sent_ok_step, H0. }
  destruct (H initialWorld (conj (fun r (Hr : In r []) => match Hr with end)
                                 (fun i (Hi : In i []) => match Hi with end)))
    as [Ho Hp].
  split; [intros r Hr; apply trim_valid_neq, Ho, Hr | exact Hp].
Qed.

Lemma sent_requests_nonblank_witness :
  let w := run [EditText " Hi "; Click; EditText "  "; Click] initialWorld in
  outbox w = [mkReq " Hi " "en" "es"] /\ trim (text (mkReq " Hi " "en" "es")) <> "".
Proof.
  split; [reflexivity |].
  apply (proj1 (sent_requests_nonblank _
           (ex_intro _ [EditText " Hi "; Click; EditText "  "; Click] eq_refl))).
  simpl. left. reflexivity.
Defined.

(** While a request is in flight the page shows only the form and the
    disabled, dimmed "Translating..." button: no error and no result. *)
Theorem render_in_flight (w : World) :
  reachable w -> isTranslating (app w) = true ->
  render (app w) =
    [Heading "Multilingual Translator";
     TextArea "6" (inputText (app w)) "Enter text to translate...";
     LabeledInput "Original Language:" (originalLanguage (app w)) "e.g., en";
     LabeledInput "Destination Language:" (destinationLanguage (app w)) "e.g., es";
     Button true 7 "Translating..."].
Proof.
  intros Hr Ht. destruct (ui_inv_reachable w Hr) as [(_ & _ & He & Hres) | (Hf & _)].
  - unfold render, str_falsy. rewrite Ht, He, Hres. reflexivity.
  - rewrite Ht in Hf. discriminate Hf.
Qed.

Lemma render_in_flight_witness :
  let w := run [EditText "Hello"; Click] initialWorld in
  reachable w /\ isTranslating (app w) = true /\
  render (app w) =
    [Heading "Multilingual Translator";
     TextArea "6" "Hello" "Enter text to translate...";
     LabeledInput "Original Language:" "en" "e.g., en";
     LabeledInput "Destination Language:" "es" "e.g., es";
     Button true 7 "Translating..."].
Proof.
  assert (Hr : reachable (run [EditText "Hello"; Click] initialWorld))
    by (exists [EditText "Hello"; Click]; reflexivity).
  split; [exact Hr | split; [reflexivity |]].
  exact (render_in_flight _ Hr eq_refl).
Defined.

(** Once the outstanding request settles, the page shows the form, the
    enabled "Translate" button and one box: the translation (or the
    sentinel) on success, the error message on failure. *)
Theorem render_after_settle (w : World) (id : nat) (r : Reply) :
  reachable w -> In id (pending w) ->
  render (app (settle id r w)) =
    [Heading "Multilingual Translator";
     TextArea "6" (inputText (app w)) "Enter text to translate...";
     LabeledInput "Original Language:" (originalLanguage (app w)) "e.g., en";
     LabeledInput "Destination Language:" (destinationLanguage (app w)) "e.g., es";
     Button false 10 "Translate";
     match r with
     | Fulfilled t => OutputBox (or_default t noTranslationMessage)
     | Rejected resp => ErrorBox (or_default (error_message resp) genericFailureMessage)
     end].
Proof.
  intros Hr Hin. destruct (ui_inv_reachable w Hr) as [(_ & _ & He & Hres) | (_ & Hp)].
  - unfold settle. rewrite (existsb_eqb_in _ _ Hin).
    destruct r as [t | resp]; unfold render;
      cbn [app on_settled setIsTranslating setErrorMessage setTranslationResult
           translationResult errorMessage inputText originalLanguage
           destinationLanguage isTranslating].
    + rewrite He, (str_falsy_false _ (or_default_nonempty t _ noTranslationMessage_nonempty)).
      reflexivity.
    + rewrite Hres,
        (str_falsy_false _ (or_default_nonempty _ _ genericFailureMessage_nonempty)).
      reflexivity.
  - rewrite Hp in Hin. destruct Hin.
Qed.

Lemma render_after_settle_witness :
  let w := run [EditText "Hello"; Click] initialWorld in
  reachable w /\ In 0 (pending w) /\
  render (app (settle 0 (Rejected None) w)) =
    [Heading "Multilingual Translator";
     TextArea "6" "Hello" "Enter text to translate...";
     LabeledInput "Original Language:" "en" "e.g., en";
     LabeledInput "Destination Language:" "es" "e.g., es";
     Button false 10 "Translate";
     ErrorBox genericFailureMessage].
Proof.
  assert (Hr : reachable (run [EditText "Hello"; Click] initialWorld))
    by (exists [EditText "Hello"; Click]; reflexivity).
  split; [exact Hr | split; [left; reflexivity |]].
  exact (render_after_settle _ 0 (Rejected None) Hr (or_introl eq_refl)).
Defined.

(** The session never gets stuck: from any reachable state the user can
    send a request with any non-blank text and the current language codes
    (waiting for the outstanding request first, if there is one). *)
Theorem can_always_send (w : World) (t : string) :
  reachable w -> str_falsy (trim t) = false ->
  exists evs, outbox (run evs w) =
    (outbox w ++ [mkReq t (originalLanguage (app w)) (destinationLanguage (app w))])%list.
Proof.
  intros Hr Ht. destruct (ui_inv_reachable w Hr) as [(Hf & Hp & _) | (Hf & Hp)].
  - exists [Settle (pred (next_id w)) (Rejected None); EditText t; Click].
    cbn [run fold_left ui_step]. unfold settle.
    rewrite Hp. cbn [existsb]. rewrite Nat.eqb_refl. cbn [orb app mapApp].
    unfold handleTranslationSubmit, mapApp. cbn [app inputText setInputText].
    rewrite Ht. reflexivity.
  - exists [EditText t; Click].
    cbn [run fold_left ui_step mapApp app setInputText isTranslating]. rewrite Hf.
    unfold handleTranslationSubmit, mapApp. cbn [app inputText setInputText].
    rewrite Ht. reflexivity.
Qed.

Lemma can_always_send_witness :
  let w := run [EditText "Hello"; Click] initialWorld in
  reachable w /\ str_falsy (trim "Bye") = false /\
  exists evs, outbox (run evs w) = [mkReq "Hello" "en" "es"; mkReq "Bye" "en" "es"].
Proof.
  assert (Hr : reachable (run [EditText "Hello"; Click] initialWorld))
    by (exists [EditText "Hello"; Click]; reflexivity).
  split; [exact Hr | split; [reflexivity |]].
  exact (can_always_send _ "Bye" Hr eq_refl).
Defined.

(** After a failure, clicking again resends the very same request: the
    inputs are untouched by the settlement and the button is enabled. *)
Theorem retry_resends_same_request (w : World) (resp : option ErrorResponse) :
  isTranslating (app w) = false -> str_falsy (trim (inputText (app w))) = false ->
  let req := mkReq (inputText (app w)) (originalLanguage (app w))
                   (destinationLanguage (app w)) in
  outbox (run [Click; Settle (next_id w) (Rejected resp); Click] w) =
    (outbox w ++ [req; req])%list.
Proof.
  intros Hf Hv req. unfold run. cbn [fold_left].
  replace (ui_step w Click) with
    (mkWorld (setIsTranslating true (setTranslationResult "" (setErrorMessage "" (app w))))
             (outbox w ++ [req]) (next_id w :: pending w)).
  2: { cbn [ui_step]. rewrite Hf. unfold handleTranslationSubmit. rewrite Hv.
       reflexivity. }
  cbn [ui_step]. unfold settle. cbn [pending existsb]. rewrite Nat.eqb_refl.
  cbn [orb app on_settled setIsTranslating setErrorMessage isTranslating].
  unfold handleTranslationSubmit, on_settled, setIsTranslating, setErrorMessage,
    setTranslationResult.
  cbn [app inputText].
  rewrite Hv. cbn [outbox]. rewrite <- app_assoc. reflexivity.
Qed.

Lemma retry_resends_same_request_witness :
  isTranslating (app hello_world) = false /\
  str_falsy (trim (inputText (app hello_world))) = false /\
  outbox (run [Click; Settle 0 (Rejected None); Click] hello_world) =
    [mkReq "Hello" "en" "es"; mkReq "Hello" "en" "es"].
Proof.
  split; [reflexivity | split; [reflexivity |]].
  exact (retry_resends_same_request hello_world None eq_refl eq_refl).
Defined.
